(** * Account-management operations of the chain protocol

    Shallow embedding of
    [libraries/chain/include/graphene/chain/protocol/account.hpp]:
    the twelve operation structs, their [fee_payer], [validate],
    [calculate_fee] and required-authority members, and the member lists
    of their [FC_REFLECT] declarations. *)

From Stdlib Require Import ZArith NArith String List Lia.
From stdpp Require Import base decidable countable gmap sets.

Local Open Scope Z_scope.

(* [set_solver] clears hypotheses it has already consumed. *)
#[local] Set Warnings "-clear-no-such-hyp".

(** ** Types the header consumes *)

(** [account_id_type] and [asset_id_type] are object ids; the only datum
    of an id is its instance number. *)
Record account_id_type := mk_account_id { account_instance : N }.
Record asset_id_type := mk_asset_id { asset_instance : N }.

#[global] Instance account_id_eq_dec : EqDecision account_id_type.
Proof. solve_decision. Defined.

#[global] Instance account_id_countable : Countable account_id_type.
Proof.
  apply (inj_countable' account_instance mk_account_id).
  intros [n]; reflexivity.
Defined.

#[global] Instance asset_id_eq_dec : EqDecision asset_id_type.
Proof. solve_decision. Defined.

(** [flat_set<account_id_type>]: a set of account ids; [a.insert(x)]
    adds [x] and keeps what was there. *)
Module flat_set.
Abbreviation t := (gset account_id_type).

Definition insert (x : account_id_type) (a : t) : t := {[ x ]} ∪ a.
End flat_set.

(** [share_type] is [safe<int64_t>]: a signed 64-bit amount. *)
Definition share_type := Z.

Record asset := mk_asset { amount : share_type; asset_id : asset_id_type }.

(** Unsigned members ([uint8_t] to [uint64_t]) are only stored
    and compared here, never computed with; they are natural numbers. *)
Definition uint8_t := N.
Definition uint16_t := N.
Definition uint32_t := N.
Definition uint64_t := N.

Definition void_t := unit.
Definition optional := option.

(** [optional<T>::valid()], also the contextual conversion to [bool]. *)
Definition valid {T} (o : optional T) : bool :=
  match o with Some _ => true | None => false end.

(** [extension<T>] wraps the record of optional fields in [value]. *)
Record extension (T : Type) := mk_extension { value : T }.
Arguments mk_extension {T} _.
Arguments value {T} _.

(** [extensions_type] is [flat_set<future_extensions>], and
    [future_extensions] a variant whose only alternative is [void_t]. *)
Inductive future_extensions := future_void_t (v : void_t).
Definition extensions_type := list future_extensions.

(** The remaining types come from headers that this one includes
    ([authority.hpp], [special_authority.hpp], [buyback.hpp], [vote.hpp],
    [types.hpp]); the header stores them and reads one member of
    [buyback_account_options]. *)
Class protocol_types := {
  authority : Type;
  special_authority : Type;
  public_key_type : Type;
  vote_id_type : Type;
  buyback_account_options : Type;
  asset_to_buy_issuer : buyback_account_options -> account_id_type
}.

(** ** Assertions *)

(** [FC_ASSERT(cond)] throws [fc::assert_exception], which records the
    text of the failed condition; [validate] either returns or throws.
    The specification calls this error a ValidationError. *)
Inductive exception := assert_exception (expr : string).

Inductive result (A : Type) :=
| returns (a : A)
| throws (e : exception).
Arguments returns {A} _.
Arguments throws {A} _.

#[global] Instance result_ret : MRet result := fun A a => returns a.

#[global] Instance result_bind : MBind result := fun A B k r =>
  match r with
  | returns a => k a
  | throws e => throws e
  end.

Definition FC_ASSERT (cond : bool) (expr : string) : result unit :=
  if cond then returns tt else throws (assert_exception expr).

(** ** Wire encoding *)

Definition stream := list Byte.byte.

(** The encoders of the types declared elsewhere ([fc::raw::pack] and the
    reflection of the included headers). *)
Class raw_primitives {PT : protocol_types} := {
  pack_unsigned_int : N -> stream;
  pack_uint8 : uint8_t -> stream;
  pack_uint16 : uint16_t -> stream;
  pack_uint32 : uint32_t -> stream;
  pack_bool : bool -> stream;
  pack_string : string -> stream;
  pack_asset : asset -> stream;
  pack_account_id : account_id_type -> stream;
  pack_authority : authority -> stream;
  pack_special_authority : special_authority -> stream;
  pack_public_key : public_key_type -> stream;
  pack_vote_id : vote_id_type -> stream;
  pack_buyback_account_options : buyback_account_options -> stream
}.

Section combinators.
Context {PT : protocol_types} {RP : raw_primitives}.

Definition pack_void_t (v : void_t) : stream := [].

(** Modelled from the spec: [optional<T>] is packed by [fc::raw], which
    is not part of this header; "optional fields serialize with an
    explicit present/absent discriminant". *)
Definition pack_optional {T} (p : T -> stream) (o : optional T) : stream :=
  match o with
  | Some x => pack_bool true ++ p x
  | None => pack_bool false
  end.

(** Modelled from the spec: containers are packed by [fc::raw]; a set is
    its element count followed by its elements. *)
Definition pack_flat_set {T} (p : T -> stream) (l : list T) : stream :=
  pack_unsigned_int (N.of_nat (length l)) ++ concat (map p l).

Definition pack_future_extensions (e : future_extensions) : stream :=
  match e with
  | future_void_t v => pack_unsigned_int 0 ++ pack_void_t v
  end.

Definition pack_extensions_type (e : extensions_type) : stream :=
  pack_flat_set pack_future_extensions e.

(** Modelled from the spec: [extension<T>] is packed by [ext.hpp], which
    is not part of this header; "the extension slot serializes as a
    sparse, index-tagged set of optional sub-fields, omitting absent
    ones". [count_field] and [pack_field] are the share of one member:
    its contribution to the leading count, and its index and payload. *)
Definition count_field {T} (o : optional T) : N :=
  if valid o then 1%N else 0%N.

Definition pack_field {T} (which : N) (p : T -> stream) (o : optional T)
  : stream :=
  match o with
  | Some x => pack_unsigned_int which ++ p x
  | None => []
  end.
End combinators.

(** ** The structs of the header *)

(** A struct is a module: its record is [t], its members keep their
    names, and [pack] visits the members its [FC_REFLECT] lists, in that
    order. *)

Module account_options.
Section defs.
Context {PT : protocol_types} {RP : raw_primitives}.

Record t := mk {
  memo_key : public_key_type;
  voting_account : account_id_type;
  num_witness : uint16_t;
  num_committee : uint16_t;
  votes : list vote_id_type;
  extensions : extensions_type
}.

Definition pack (o : t) : stream :=
  pack_public_key (memo_key o) ++ pack_account_id (voting_account o)
  ++ pack_uint16 (num_witness o) ++ pack_uint16 (num_committee o)
  ++ pack_flat_set pack_vote_id (votes o)
  ++ pack_extensions_type (extensions o).
End defs.
End account_options.

Module account_create_operation.
Module fee_parameters_type.
Record t := mk { }.
End fee_parameters_type.

Section defs.
Context {PT : protocol_types} {RP : raw_primitives}.

Record ext := mk_ext {
  null_ext : optional void_t;
  owner_special_authority : optional special_authority;
  active_special_authority : optional special_authority;
  buyback_options : optional buyback_account_options
}.

Record t := mk {
  fee : asset;
  kind : uint8_t;
  registrar : account_id_type;
  referrer : account_id_type;
  referrer_percent : uint16_t;
  name : string;
  owner : authority;
  active : authority;
  options : account_options.t;
  extensions : extension ext
}.

Definition fee_payer (op : t) : account_id_type := registrar op.

Definition calculate_fee (op : t) (k : fee_parameters_type.t) : share_type := 0.

Definition get_required_active_authorities (op : t) (a : flat_set.t)
  : flat_set.t :=
  let a := flat_set.insert (registrar op) a in
  match buyback_options (value (extensions op)) with
  | Some b => flat_set.insert (asset_to_buy_issuer b) a
  | None => a
  end.

Definition pack_ext (e : extension ext) : stream :=
  pack_unsigned_int
    (count_field (null_ext (value e))
     + count_field (owner_special_authority (value e))
     + count_field (active_special_authority (value e))
     + count_field (buyback_options (value e)))%N
  ++ pack_field 0 pack_void_t (null_ext (value e))
  ++ pack_field 1 pack_special_authority (owner_special_authority (value e))
  ++ pack_field 2 pack_special_authority (active_special_authority (value e))
  ++ pack_field 3 pack_buyback_account_options (buyback_options (value e)).

Definition pack (op : t) : stream :=
  pack_asset (fee op) ++ pack_uint8 (kind op)
  ++ pack_account_id (registrar op) ++ pack_account_id (referrer op)
  ++ pack_uint16 (referrer_percent op) ++ pack_string (name op)
  ++ pack_authority (owner op) ++ pack_authority (active op)
  ++ account_options.pack (options op).

Definition with_extensions (op : t) (e : extension ext) : t :=
  mk (fee op) (kind op) (registrar op) (referrer op) (referrer_percent op)
     (name op) (owner op) (active op) (options op) e.
End defs.
End account_create_operation.

Module ext_account_update_operation.
Section defs.
Context {PT : protocol_types} {RP : raw_primitives}.

Record t := mk {
  null_ext : optional void_t;
  owner_special_authority : optional special_authority;
  active_special_authority : optional special_authority
}.

Definition pack (e : extension t) : stream :=
  pack_unsigned_int
    (count_field (null_ext (value e))
     + count_field (owner_special_authority (value e))
     + count_field (active_special_authority (value e)))%N
  ++ pack_field 0 pack_void_t (null_ext (value e))
  ++ pack_field 1 pack_special_authority (owner_special_authority (value e))
  ++ pack_field 2 pack_special_authority (active_special_authority (value e)).
End defs.
End ext_account_update_operation.

Module account_update_operation.
Module fee_parameters_type.
Record t := mk {
  fee : share_type;
  price_per_kbyte : uint32_t
}.
End fee_parameters_type.

Section defs.
Context {PT : protocol_types} {RP : raw_primitives}.

Record t := mk {
  fee : asset;
  account : account_id_type;
  owner : optional authority;
  active : optional authority;
  new_options : optional account_options.t;
  extensions : extension ext_account_update_operation.t
}.

Definition fee_payer (op : t) : account_id_type := account op.

Definition is_owner_update (op : t) : bool :=
  valid (owner op)
  || valid (ext_account_update_operation.owner_special_authority
              (value (extensions op))).

Definition get_required_owner_authorities (op : t) (a : flat_set.t)
  : flat_set.t :=
  if is_owner_update op then flat_set.insert (account op) a else a.

Definition get_required_active_authorities (op : t) (a : flat_set.t)
  : flat_set.t :=
  if negb (is_owner_update op) then flat_set.insert (account op) a else a.

Definition pack (op : t) : stream :=
  pack_asset (fee op) ++ pack_account_id (account op)
  ++ pack_optional pack_authority (owner op)
  ++ pack_optional pack_authority (active op)
  ++ pack_optional account_options.pack (new_options op).

Definition with_extensions (op : t)
    (e : extension ext_account_update_operation.t) : t :=
  mk (fee op) (account op) (owner op) (active op) (new_options op) e.
End defs.
End account_update_operation.

Module account_whitelist_operation.
Module fee_parameters_type.
Record t := mk {
  fee : share_type
}.

Definition default : t := mk 300000.
End fee_parameters_type.

Section defs.
Context {PT : protocol_types} {RP : raw_primitives}.

Inductive account_listing :=
| no_listing
| white_listed
| black_listed
| white_and_black_listed.

(** The enumerators' values. *)
Definition listing_value (l : account_listing) : uint8_t :=
  match l with
  | no_listing => 0x0
  | white_listed => 0x1
  | black_listed => 0x2
  | white_and_black_listed => N.lor 0x1 0x2
  end%N.

Record t := mk {
  fee : asset;
  authorizing_account : account_id_type;
  account_to_list : account_id_type;
  new_listing : uint8_t;
  extensions : extensions_type
}.

Definition fee_payer (op : t) : account_id_type := authorizing_account op.

Definition validate (op : t) : result unit :=
  FC_ASSERT (amount (fee op) >=? 0) "fee.amount >= 0" ;;
  FC_ASSERT (new_listing op <? 0x4)%N "new_listing < 0x4".

Definition pack (op : t) : stream :=
  pack_asset (fee op) ++ pack_account_id (authorizing_account op)
  ++ pack_account_id (account_to_list op) ++ pack_uint8 (new_listing op)
  ++ pack_extensions_type (extensions op).
End defs.
End account_whitelist_operation.

Module account_upgrade_operation.
Module fee_parameters_type.
Record t := mk {
  membership_annual_fee : uint64_t;
  membership_lifetime_fee : uint64_t
}.
End fee_parameters_type.

Section defs.
Context {PT : protocol_types} {RP : raw_primitives}.

Record t := mk {
  fee : asset;
  account_to_upgrade : account_id_type;
  upgrade_to_lifetime_member : bool;
  extensions : extensions_type
}.

Definition fee_payer (op : t) : account_id_type := account_to_upgrade op.

Definition pack (op : t) : stream :=
  pack_asset (fee op) ++ pack_account_id (account_to_upgrade op)
  ++ pack_bool (upgrade_to_lifetime_member op)
  ++ pack_extensions_type (extensions op).
End defs.
End account_upgrade_operation.

Module account_transfer_operation.
Module fee_parameters_type.
Record t := mk {
  fee : uint64_t
}.
End fee_parameters_type.

Section defs.
Context {PT : protocol_types} {RP : raw_primitives}.

Record t := mk {
  fee : asset;
  account_id : account_id_type;
  new_owner : account_id_type;
  extensions : extensions_type
}.

Definition fee_payer (op : t) : account_id_type := account_id op.

Definition pack (op : t) : stream :=
  pack_asset (fee op) ++ pack_account_id (account_id op)
  ++ pack_account_id (new_owner op)
  ++ pack_extensions_type (extensions op).
End defs.
End account_transfer_operation.

Module tether_accounts_operation.
Module fee_parameters_type.
Record t := mk { }.
End fee_parameters_type.

Section defs.
Context {PT : protocol_types} {RP : raw_primitives}.

Record t := mk {
  fee : asset;
  wallet_account : account_id_type;
  vault_account : account_id_type;
  extensions : extensions_type
}.

Definition fee_payer (op : t) : account_id_type := wallet_account op.

Definition calculate_fee (op : t) (k : fee_parameters_type.t) : share_type := 0.

Definition get_required_active_authorities (op : t) (a : flat_set.t)
  : flat_set.t :=
  let a := flat_set.insert (wallet_account op) a in
  flat_set.insert (vault_account op) a.

Definition pack (op : t) : stream :=
  pack_asset (fee op) ++ pack_account_id (wallet_account op)
  ++ pack_account_id (vault_account op)
  ++ pack_extensions_type (extensions op).
End defs.
End tether_accounts_operation.

Module change_public_keys_operation.
Module fee_parameters_type.
Record t := mk { }.
End fee_parameters_type.

Section defs.
Context {PT : protocol_types} {RP : raw_primitives}.

Record t := mk {
  fee : asset;
  account : account_id_type;
  active : optional authority;
  owner : optional authority;
  extensions : extensions_type
}.

Definition is_owner_update (op : t) : bool := valid (owner op).

Definition get_required_owner_authorities (op : t) (a : flat_set.t)
  : flat_set.t :=
  if is_owner_update op then flat_set.insert (account op) a else a.

Definition get_required_active_authorities (op : t) (a : flat_set.t)
  : flat_set.t :=
  if negb (is_owner_update op) then flat_set.insert (account op) a else a.

Definition fee_payer (op : t) : account_id_type := account op.

Definition calculate_fee (op : t) (k : fee_parameters_type.t) : share_type := 0.

Definition pack (op : t) : stream :=
  pack_asset (fee op) ++ pack_account_id (account op)
  ++ pack_optional pack_authority (active op)
  ++ pack_optional pack_authority (owner op).

Definition with_extensions (op : t) (e : extensions_type) : t :=
  mk (fee op) (account op) (active op) (owner op) e.
End defs.
End change_public_keys_operation.

Module set_roll_back_enabled_operation.
Module fee_parameters_type.
Record t := mk { }.
End fee_parameters_type.

Section defs.
Context {PT : protocol_types} {RP : raw_primitives}.

Record t := mk {
  fee : asset;
  account : account_id_type;
  roll_back_enabled : bool;
  extensions : extensions_type
}.

Definition fee_payer (op : t) : account_id_type := account op.

Definition calculate_fee (op : t) (k : fee_parameters_type.t) : share_type := 0.

Definition pack (op : t) : stream :=
  pack_asset (fee op) ++ pack_account_id (account op)
  ++ pack_bool (roll_back_enabled op)
  ++ pack_extensions_type (extensions op).
End defs.
End set_roll_back_enabled_operation.

Module roll_back_public_keys_operation.
Module fee_parameters_type.
Record t := mk { }.
End fee_parameters_type.

Section defs.
Context {PT : protocol_types} {RP : raw_primitives}.

Record t := mk {
  fee : asset;
  authority : account_id_type;
  account : account_id_type;
  extensions : extensions_type
}.

Definition fee_payer (op : t) : account_id_type := authority op.

Definition calculate_fee (op : t) (k : fee_parameters_type.t) : share_type := 0.

Definition pack (op : t) : stream :=
  pack_asset (fee op) ++ pack_account_id (authority op)
  ++ pack_account_id (account op)
  ++ pack_extensions_type (extensions op).
End defs.
End roll_back_public_keys_operation.

Module upgrade_account_cycles_operation.
Module fee_parameters_type.
Record t := mk { }.
End fee_parameters_type.

Section defs.
Context {PT : protocol_types} {RP : raw_primitives}.

Record t := mk {
  fee : asset;
  account : account_id_type;
  description : string;
  extensions : extensions_type
}.

Definition fee_payer (op : t) : account_id_type := account op.

Definition validate (op : t) : result unit := FC_ASSERT false "false".

Definition calculate_fee (op : t) (k : fee_parameters_type.t) : share_type := 0.

Definition pack (op : t) : stream :=
  pack_asset (fee op) ++ pack_account_id (account op)
  ++ pack_string (description op)
  ++ pack_extensions_type (extensions op).
End defs.
End upgrade_account_cycles_operation.

Module set_starting_cycle_asset_amount_operation.
Module fee_parameters_type.
Record t := mk { }.
End fee_parameters_type.

Section defs.
Context {PT : protocol_types} {RP : raw_primitives}.

Record t := mk {
  fee : asset;
  issuer : account_id_type;
  new_amount : uint32_t;
  extensions : extensions_type
}.

Definition fee_payer (op : t) : account_id_type := issuer op.

Definition validate (op : t) : result unit := returns tt.

Definition calculate_fee (op : t) (k : fee_parameters_type.t) : share_type := 0.

Definition pack (op : t) : stream :=
  pack_asset (fee op) ++ pack_account_id (issuer op)
  ++ pack_uint32 (new_amount op)
  ++ pack_extensions_type (extensions op).
End defs.
End set_starting_cycle_asset_amount_operation.

Module set_chain_authority_operation.
Module fee_parameters_type.
Record t := mk { }.
End fee_parameters_type.

Section defs.
Context {PT : protocol_types} {RP : raw_primitives}.

Record t := mk {
  fee : asset;
  issuer : account_id_type;
  account : account_id_type;
  kind : string;
  extensions : extensions_type
}.

Definition fee_payer (op : t) : account_id_type := issuer op.

Definition validate (op : t) : result unit := returns tt.

Definition calculate_fee (op : t) (k : fee_parameters_type.t) : share_type := 0.

Definition pack (op : t) : stream :=
  pack_asset (fee op) ++ pack_account_id (issuer op)
  ++ pack_account_id (account op) ++ pack_string (kind op)
  ++ pack_extensions_type (extensions op).
End defs.
End set_chain_authority_operation.

(** ** Sample values *)

(** An instance of the consumed types on which the definitions run: an
    authority is its weight threshold, and buyback options are the asset
    to buy and its issuer. *)
Definition sample_types : protocol_types := {|
  authority := N;
  special_authority := N;
  public_key_type := N;
  vote_id_type := N;
  buyback_account_options := asset_id_type * account_id_type;
  asset_to_buy_issuer := snd
|}.

Definition acct (n : N) : account_id_type := mk_account_id n.

Definition core_fee (n : Z) : asset := mk_asset n (mk_asset_id 0).

Definition sample_options : @account_options.t sample_types :=
  account_options.mk (PT := sample_types) 7%N (acct 5) 0%N 0%N [] [].

Definition sample_create
    (buyback : optional (asset_id_type * account_id_type))
  : @account_create_operation.t sample_types :=
  account_create_operation.mk (PT := sample_types)
    (core_fee 0) 1%N (acct 10) (acct 11) 0%N "alice" 1%N 1%N sample_options
    (mk_extension
       (account_create_operation.mk_ext (PT := sample_types)
          None None None buyback)).

Definition sample_update (owner : optional N) (owner_special : optional N)
  : @account_update_operation.t sample_types :=
  account_update_operation.mk (PT := sample_types)
    (core_fee 0) (acct 20) owner None None
    (mk_extension
       (ext_account_update_operation.mk (PT := sample_types)
          None owner_special None)).

Definition sample_change_keys (owner : optional N)
  : @change_public_keys_operation.t sample_types :=
  change_public_keys_operation.mk (PT := sample_types)
    (core_fee 0) (acct 30) None owner [].

(** ** The required-authority members as one type *)

(** The six members of the header that fill a set of required
    authorities, each with the operation it belongs to; [emit] calls the
    member. *)
Section members.
Context {PT : protocol_types}.

Inductive authority_member :=
| create_active (op : account_create_operation.t)
| update_owner (op : account_update_operation.t)
| update_active (op : account_update_operation.t)
| tether_active (op : tether_accounts_operation.t)
| change_keys_owner (op : change_public_keys_operation.t)
| change_keys_active (op : change_public_keys_operation.t).

Definition emit (m : authority_member) (a : flat_set.t) : flat_set.t :=
  match m with
  | create_active op =>
      account_create_operation.get_required_active_authorities op a
  | update_owner op =>
      account_update_operation.get_required_owner_authorities op a
  | update_active op =>
      account_update_operation.get_required_active_authorities op a
  | tether_active op =>
      tether_accounts_operation.get_required_active_authorities op a
  | change_keys_owner op =>
      change_public_keys_operation.get_required_owner_authorities op a
  | change_keys_active op =>
      change_public_keys_operation.get_required_active_authorities op a
  end.
End members.

(** ** Reading the packed form back *)

(** The values an encoder is meant for: every fixed-width encoder has a
    range, and the encoders of the consumed types have theirs. *)
Class wire_domains {PT : protocol_types} := {
  dom_unsigned_int : N → Prop;
  dom_string : string → Prop;
  dom_asset : asset → Prop;
  dom_account_id : account_id_type → Prop;
  dom_authority : authority → Prop;
  dom_special_authority : special_authority → Prop;
  dom_public_key : public_key_type → Prop;
  dom_vote_id : vote_id_type → Prop;
  dom_buyback_account_options : buyback_account_options → Prop
}.

(** An encoder is unambiguous on a domain when the packed form of a
    value, followed by anything, tells the value and what follows it. *)
Definition unambiguous {T} (D : T → Prop) (p : T → stream) : Prop :=
  ∀ (x y : T) (r r' : stream),
    D x → D y → p x ++ r = p y ++ r' → x = y ∧ r = r'.

Record unambiguous_primitives {PT : protocol_types}
    (RP : raw_primitives) (WD : wire_domains) : Prop := {
  unambiguous_unsigned_int : unambiguous dom_unsigned_int pack_unsigned_int;
  unambiguous_uint8 : unambiguous (λ n, n < 2 ^ 8)%N pack_uint8;
  unambiguous_uint16 : unambiguous (λ n, n < 2 ^ 16)%N pack_uint16;
  unambiguous_uint32 : unambiguous (λ n, n < 2 ^ 32)%N pack_uint32;
  unambiguous_bool : unambiguous (λ _, True) pack_bool;
  unambiguous_string : unambiguous dom_string pack_string;
  unambiguous_asset : unambiguous dom_asset pack_asset;
  unambiguous_account_id : unambiguous dom_account_id pack_account_id;
  unambiguous_authority : unambiguous dom_authority pack_authority;
  unambiguous_special_authority :
    unambiguous dom_special_authority pack_special_authority;
  unambiguous_public_key : unambiguous dom_public_key pack_public_key;
  unambiguous_vote_id : unambiguous dom_vote_id pack_vote_id;
  unambiguous_buyback_account_options :
    unambiguous dom_buyback_account_options pack_buyback_account_options
}.

Section domains.
Context {PT : protocol_types} {WD : wire_domains}.

Definition dom_optional {T} (D : T → Prop) (o : optional T) : Prop :=
  match o with
  | Some x => D x
  | None => True
  end.

Definition dom_flat_set {T} (D : T → Prop) (l : list T) : Prop :=
  dom_unsigned_int (N.of_nat (length l)) ∧ Forall D l.

Definition dom_extensions_type (e : extensions_type) : Prop :=
  dom_flat_set (λ _, True) e.

(** An operation fits the wire when each member its [FC_REFLECT] lists
    is in the domain of its encoder. *)
Definition account_options_fits (o : account_options.t) : Prop :=
  dom_public_key (account_options.memo_key o)
  ∧ dom_account_id (account_options.voting_account o)
  ∧ (account_options.num_witness o < 2 ^ 16)%N
  ∧ (account_options.num_committee o < 2 ^ 16)%N
  ∧ dom_flat_set dom_vote_id (account_options.votes o)
  ∧ dom_extensions_type (account_options.extensions o).

Definition account_create_fits (op : account_create_operation.t) : Prop :=
  dom_asset (account_create_operation.fee op)
  ∧ (account_create_operation.kind op < 2 ^ 8)%N
  ∧ dom_account_id (account_create_operation.registrar op)
  ∧ dom_account_id (account_create_operation.referrer op)
  ∧ (account_create_operation.referrer_percent op < 2 ^ 16)%N
  ∧ dom_string (account_create_operation.name op)
  ∧ dom_authority (account_create_operation.owner op)
  ∧ dom_authority (account_create_operation.active op)
  ∧ account_options_fits (account_create_operation.options op).

Definition account_update_fits (op : account_update_operation.t) : Prop :=
  dom_asset (account_update_operation.fee op)
  ∧ dom_account_id (account_update_operation.account op)
  ∧ dom_optional dom_authority (account_update_operation.owner op)
  ∧ dom_optional dom_authority (account_update_operation.active op)
  ∧ dom_optional account_options_fits
      (account_update_operation.new_options op).

Definition account_whitelist_fits (op : account_whitelist_operation.t)
  : Prop :=
  dom_asset (account_whitelist_operation.fee op)
  ∧ dom_account_id (account_whitelist_operation.authorizing_account op)
  ∧ dom_account_id (account_whitelist_operation.account_to_list op)
  ∧ (account_whitelist_operation.new_listing op < 2 ^ 8)%N
  ∧ dom_extensions_type (account_whitelist_operation.extensions op).

Definition account_upgrade_fits (op : account_upgrade_operation.t) : Prop :=
  dom_asset (account_upgrade_operation.fee op)
  ∧ dom_account_id (account_upgrade_operation.account_to_upgrade op)
  ∧ dom_extensions_type (account_upgrade_operation.extensions op).

Definition account_transfer_fits (op : account_transfer_operation.t) : Prop :=
  dom_asset (account_transfer_operation.fee op)
  ∧ dom_account_id (account_transfer_operation.account_id op)
  ∧ dom_account_id (account_transfer_operation.new_owner op)
  ∧ dom_extensions_type (account_transfer_operation.extensions op).

Definition tether_accounts_fits (op : tether_accounts_operation.t) : Prop :=
  dom_asset (tether_accounts_operation.fee op)
  ∧ dom_account_id (tether_accounts_operation.wallet_account op)
  ∧ dom_account_id (tether_accounts_operation.vault_account op)
  ∧ dom_extensions_type (tether_accounts_operation.extensions op).

Definition change_public_keys_fits (op : change_public_keys_operation.t)
  : Prop :=
  dom_asset (change_public_keys_operation.fee op)
  ∧ dom_account_id (change_public_keys_operation.account op)
  ∧ dom_optional dom_authority (change_public_keys_operation.active op)
  ∧ dom_optional dom_authority (change_public_keys_operation.owner op).

Definition set_roll_back_enabled_fits
    (op : set_roll_back_enabled_operation.t) : Prop :=
  dom_asset (set_roll_back_enabled_operation.fee op)
  ∧ dom_account_id (set_roll_back_enabled_operation.account op)
  ∧ dom_extensions_type (set_roll_back_enabled_operation.extensions op).

Definition roll_back_public_keys_fits
    (op : roll_back_public_keys_operation.t) : Prop :=
  dom_asset (roll_back_public_keys_operation.fee op)
  ∧ dom_account_id (roll_back_public_keys_operation.authority op)
  ∧ dom_account_id (roll_back_public_keys_operation.account op)
  ∧ dom_extensions_type (roll_back_public_keys_operation.extensions op).

Definition upgrade_account_cycles_fits
    (op : upgrade_account_cycles_operation.t) : Prop :=
  dom_asset (upgrade_account_cycles_operation.fee op)
  ∧ dom_account_id (upgrade_account_cycles_operation.account op)
  ∧ dom_string (upgrade_account_cycles_operation.description op)
  ∧ dom_extensions_type (upgrade_account_cycles_operation.extensions op).

Definition set_starting_cycle_asset_amount_fits
    (op : set_starting_cycle_asset_amount_operation.t) : Prop :=
  dom_asset (set_starting_cycle_asset_amount_operation.fee op)
  ∧ dom_account_id (set_starting_cycle_asset_amount_operation.issuer op)
  ∧ (set_starting_cycle_asset_amount_operation.new_amount op < 2 ^ 32)%N
  ∧ dom_extensions_type
      (set_starting_cycle_asset_amount_operation.extensions op).

Definition set_chain_authority_fits (op : set_chain_authority_operation.t)
  : Prop :=
  dom_asset (set_chain_authority_operation.fee op)
  ∧ dom_account_id (set_chain_authority_operation.issuer op)
  ∧ dom_account_id (set_chain_authority_operation.account op)
  ∧ dom_string (set_chain_authority_operation.kind op)
  ∧ dom_extensions_type (set_chain_authority_operation.extensions op).
End domains.

(** ** Sample encoders *)

(** Encoders for [sample_types] on which the packed form can be
    computed: every number is written little-endian on a fixed number of
    bytes, a string as its length and its bytes. *)
Definition byte_of_N (n : N) : Byte.byte := default Byte.x00 (Byte.of_N n).

Fixpoint le_bytes (k : nat) (n : N) : stream :=
  match k with
  | O => []
  | S k' => byte_of_N (n mod 256) :: le_bytes k' (n / 256)
  end.

Definition fits_bytes (k : nat) (n : N) : Prop := (n < 256 ^ N.of_nat k)%N.

Definition sample_primitives : @raw_primitives sample_types := {|
  pack_unsigned_int := le_bytes 4;
  pack_uint8 := le_bytes 1;
  pack_uint16 := le_bytes 2;
  pack_uint32 := le_bytes 4;
  pack_bool := λ b, [if b then Byte.x01 else Byte.x00];
  pack_string := λ s,
    le_bytes 4 (N.of_nat (length (list_byte_of_string s)))
    ++ list_byte_of_string s;
  pack_asset := λ a,
    le_bytes 8 (Z.to_N (amount a mod 2 ^ 64))
    ++ le_bytes 8 (asset_instance (asset_id a));
  pack_account_id := λ i, le_bytes 8 (account_instance i);
  pack_authority := le_bytes 4 : @authority sample_types → stream;
  pack_special_authority :=
    le_bytes 4 : @special_authority sample_types → stream;
  pack_public_key := le_bytes 33 : @public_key_type sample_types → stream;
  pack_vote_id := le_bytes 4 : @vote_id_type sample_types → stream;
  pack_buyback_account_options := λ b : asset_id_type * account_id_type,
    le_bytes 8 (asset_instance (fst b))
    ++ le_bytes 8 (account_instance (snd b))
|}.

Definition sample_domains : @wire_domains sample_types := {|
  dom_unsigned_int := fits_bytes 4;
  dom_string := λ s, fits_bytes 4 (N.of_nat (length (list_byte_of_string s)));
  dom_asset := λ a,
    - 2 ^ 63 ≤ amount a < 2 ^ 63 ∧ fits_bytes 8 (asset_instance (asset_id a));
  dom_account_id := λ i, fits_bytes 8 (account_instance i);
  dom_authority := fits_bytes 4 : @authority sample_types → Prop;
  dom_special_authority :=
    fits_bytes 4 : @special_authority sample_types → Prop;
  dom_public_key := fits_bytes 33 : @public_key_type sample_types → Prop;
  dom_vote_id := fits_bytes 4 : @vote_id_type sample_types → Prop;
  dom_buyback_account_options := λ b : asset_id_type * account_id_type,
    fits_bytes 8 (asset_instance (fst b))
    ∧ fits_bytes 8 (account_instance (snd b))
|}.

Definition sample_tether (wallet vault : N) : tether_accounts_operation.t :=
  tether_accounts_operation.mk (core_fee 5) (acct wallet) (acct vault) [].

(** ** Required authorities *)

Section authorities.
Context {PT : protocol_types}.

Lemma elem_of_flat_set_insert (x y : account_id_type) (a : flat_set.t) :
  x ∈ flat_set.insert y a ↔ x = y ∨ x ∈ a.
Proof. unfold flat_set.insert. set_solver. Qed.

(** Closes the goals left once the test of [is_owner_update] is decided. *)
Ltac requirement_cases :=
  unfold flat_set.insert; repeat split; try done; try (intros; congruence);
  set_solver.

(** An owner update is present in an [account_update_operation] exactly
    when a new owner authority is supplied or the owner-special-authority
    extension is set. *)
Lemma account_update_is_owner_update (op : account_update_operation.t) :
  account_update_operation.is_owner_update op = true
  ↔ is_Some (account_update_operation.owner op)
    ∨ is_Some (ext_account_update_operation.owner_special_authority
                 (value (account_update_operation.extensions op))).
Proof.
  unfold account_update_operation.is_owner_update.
  rewrite orb_true_iff.
  destruct (account_update_operation.owner op),
    (ext_account_update_operation.owner_special_authority _); simpl;
    split; intros [H | H]; eauto;
    try discriminate H; try (destruct H; discriminate).
Qed.

(** In a [change_public_keys_operation] the only owner update there is
    is a new owner authority: its [extensions] member is the generic
    slot, which has no owner-special-authority field. *)
Lemma change_public_keys_is_owner_update (op : change_public_keys_operation.t) :
  change_public_keys_operation.is_owner_update op = true
  ↔ is_Some (change_public_keys_operation.owner op).
Proof.
  unfold change_public_keys_operation.is_owner_update.
  destruct (change_public_keys_operation.owner op); simpl; split;
    intros H; eauto; try discriminate H; destruct H; discriminate.
Qed.

(** C1. For every [account_update_operation] and every
    [change_public_keys_operation] exactly one authority class is required
    of [account]. When an owner update is present (a new owner authority,
    or for [account_update_operation] the owner-special-authority
    extension), [get_required_owner_authorities] inserts [account] and
    [get_required_active_authorities] leaves the set as it was; when none
    is present it is the other way round. On an empty set [account] is
    therefore in exactly one of the two results. *)
Theorem owner_and_active_requirement_exclusive :
  (∀ (op : account_update_operation.t) (a : flat_set.t),
     let present :=
       is_Some (account_update_operation.owner op)
       ∨ is_Some (ext_account_update_operation.owner_special_authority
                    (value (account_update_operation.extensions op))) in
     let acc := account_update_operation.account op in
     (present →
        account_update_operation.get_required_owner_authorities op a
          = flat_set.insert acc a
        ∧ account_update_operation.get_required_active_authorities op a = a)
     ∧ (¬ present →
        account_update_operation.get_required_owner_authorities op a = a
        ∧ account_update_operation.get_required_active_authorities op a
          = flat_set.insert acc a)
     ∧ (acc ∈ account_update_operation.get_required_owner_authorities op ∅
        ↔ acc ∉ account_update_operation.get_required_active_authorities op ∅))
  ∧ (∀ (op : change_public_keys_operation.t) (a : flat_set.t),
     let present := is_Some (change_public_keys_operation.owner op) in
     let acc := change_public_keys_operation.account op in
     (present →
        change_public_keys_operation.get_required_owner_authorities op a
          = flat_set.insert acc a
        ∧ change_public_keys_operation.get_required_active_authorities op a
          = a)
     ∧ (¬ present →
        change_public_keys_operation.get_required_owner_authorities op a = a
        ∧ change_public_keys_operation.get_required_active_authorities op a
          = flat_set.insert acc a)
     ∧ (acc ∈ change_public_keys_operation.get_required_owner_authorities op ∅
        ↔ acc ∉ change_public_keys_operation.get_required_active_authorities
                  op ∅)).
Proof.
  split; intros op a present acc; subst present acc.
  - rewrite <- account_update_is_owner_update.
    unfold account_update_operation.get_required_owner_authorities,
      account_update_operation.get_required_active_authorities.
    destruct (account_update_operation.is_owner_update op); simpl;
      requirement_cases.
  - rewrite <- change_public_keys_is_owner_update.
    unfold change_public_keys_operation.get_required_owner_authorities,
      change_public_keys_operation.get_required_active_authorities.
    destruct (change_public_keys_operation.is_owner_update op); simpl;
      requirement_cases.
Qed.

(** Membership in what [account_create_operation]'s member returns. *)
Lemma elem_of_account_create_required_active
    (op : account_create_operation.t) (a : flat_set.t) (x : account_id_type) :
  x ∈ account_create_operation.get_required_active_authorities op a
  ↔ x ∈ a
    ∨ x = account_create_operation.registrar op
    ∨ ∃ b, account_create_operation.buyback_options
             (value (account_create_operation.extensions op)) = Some b
           ∧ x = asset_to_buy_issuer b.
Proof.
  unfold account_create_operation.get_required_active_authorities.
  destruct (account_create_operation.buyback_options _) as [b |];
    rewrite ?elem_of_flat_set_insert.
  - split.
    + intros [-> | [-> | Hx]]; eauto.
    + intros [Hx | [-> | (b' & Hb & ->)]]; eauto.
      injection Hb as <-. by left.
  - split.
    + intros [-> | Hx]; eauto.
    + intros [Hx | [-> | (b' & Hb & _)]]; eauto. discriminate Hb.
Qed.

(** C2. For every [account_create_operation],
    [get_required_active_authorities] inserts [registrar], inserts the
    buyback asset issuer exactly when [extensions.value.buyback_options]
    is populated, and inserts no other account id. *)
Theorem account_create_required_active :
  ∀ (op : account_create_operation.t) (a : flat_set.t),
    let buyback :=
      account_create_operation.buyback_options
        (value (account_create_operation.extensions op)) in
    account_create_operation.get_required_active_authorities op a
      = match buyback with
        | Some b =>
            flat_set.insert (asset_to_buy_issuer b)
              (flat_set.insert (account_create_operation.registrar op) a)
        | None => flat_set.insert (account_create_operation.registrar op) a
        end
    ∧ ∀ x : account_id_type,
        x ∈ account_create_operation.get_required_active_authorities op a
        ↔ x ∈ a
          ∨ x = account_create_operation.registrar op
          ∨ ∃ b, buyback = Some b ∧ x = asset_to_buy_issuer b.
Proof.
  intros op a buyback. subst buyback.
  split; [reflexivity |].
  intros x. apply elem_of_account_create_required_active.
Qed.

(** C3. For every [tether_accounts_operation],
    [get_required_active_authorities] on an empty set yields exactly
    [{wallet_account, vault_account}], whatever the other fields hold: two
    operations that agree on these two fields yield the same set. *)
Theorem tether_accounts_required_active :
  (∀ op : tether_accounts_operation.t,
     tether_accounts_operation.get_required_active_authorities op ∅
       = {[ tether_accounts_operation.wallet_account op;
            tether_accounts_operation.vault_account op ]})
  ∧ (∀ (fee fee' : asset) (wallet vault : account_id_type)
       (extensions extensions' : extensions_type),
       tether_accounts_operation.get_required_active_authorities
         (tether_accounts_operation.mk fee wallet vault extensions) ∅
       = tether_accounts_operation.get_required_active_authorities
           (tether_accounts_operation.mk fee' wallet vault extensions') ∅).
Proof.
  split.
  - intros op.
    unfold tether_accounts_operation.get_required_active_authorities,
      flat_set.insert.
    set_solver.
  - reflexivity.
Qed.

(** C10. Every [get_required_owner_authorities] and
    [get_required_active_authorities] of this header only adds to the set
    it is given: what was in the set before the call is in it after, and
    an id that was not there before is a field of the operation
    ([registrar] or the buyback issuer for [account_create_operation],
    [account] for [account_update_operation] and
    [change_public_keys_operation], [wallet_account] or [vault_account]
    for [tether_accounts_operation]). *)
Theorem required_authorities_only_add :
  (∀ (op : account_create_operation.t) (a : flat_set.t),
     a ⊆ account_create_operation.get_required_active_authorities op a
     ∧ ∀ x, x ∈ account_create_operation.get_required_active_authorities op a
         → x ∉ a
         → x = account_create_operation.registrar op
           ∨ ∃ b, account_create_operation.buyback_options
                    (value (account_create_operation.extensions op)) = Some b
                  ∧ x = asset_to_buy_issuer b)
  ∧ (∀ (op : account_update_operation.t) (a : flat_set.t),
     (a ⊆ account_update_operation.get_required_owner_authorities op a
      ∧ ∀ x, x ∈ account_update_operation.get_required_owner_authorities op a
          → x ∉ a → x = account_update_operation.account op)
     ∧ (a ⊆ account_update_operation.get_required_active_authorities op a
        ∧ ∀ x, x ∈ account_update_operation.get_required_active_authorities
                    op a
            → x ∉ a → x = account_update_operation.account op))
  ∧ (∀ (op : tether_accounts_operation.t) (a : flat_set.t),
     a ⊆ tether_accounts_operation.get_required_active_authorities op a
     ∧ ∀ x, x ∈ tether_accounts_operation.get_required_active_authorities op a
         → x ∉ a
         → x = tether_accounts_operation.wallet_account op
           ∨ x = tether_accounts_operation.vault_account op)
  ∧ (∀ (op : change_public_keys_operation.t) (a : flat_set.t),
     (a ⊆ change_public_keys_operation.get_required_owner_authorities op a
      ∧ ∀ x, x ∈ change_public_keys_operation.get_required_owner_authorities
                  op a
          → x ∉ a → x = change_public_keys_operation.account op)
     ∧ (a ⊆ change_public_keys_operation.get_required_active_authorities op a
        ∧ ∀ x, x ∈ change_public_keys_operation.get_required_active_authorities
                    op a
            → x ∉ a → x = change_public_keys_operation.account op)).
Proof.
  split; [| split; [| split]]; intros op a.
  - split.
    + intros x Hx. apply elem_of_account_create_required_active. by left.
    + intros x Hx Hna.
      apply elem_of_account_create_required_active in Hx as [Hx | Hx];
        [done | exact Hx].
  - unfold account_update_operation.get_required_owner_authorities,
      account_update_operation.get_required_active_authorities.
    destruct (account_update_operation.is_owner_update op); simpl;
      requirement_cases.
  - unfold tether_accounts_operation.get_required_active_authorities.
    requirement_cases.
  - unfold change_public_keys_operation.get_required_owner_authorities,
      change_public_keys_operation.get_required_active_authorities.
    destruct (change_public_keys_operation.is_owner_update op); simpl;
      requirement_cases.
Qed.
End authorities.

(** ** Validation *)

Lemma FC_ASSERT_returns (cond : bool) (expr : string) :
  FC_ASSERT cond expr = returns tt ↔ cond = true.
Proof. destruct cond; simpl; split; intros H; done. Qed.


(** The enumerators of [account_listing] are the values below [0x4]. *)
Lemma listing_value_lt (l : account_whitelist_operation.account_listing) :
  (account_whitelist_operation.listing_value l < 4)%N.
Proof. destruct l; vm_compute; reflexivity. Qed.

Lemma listing_value_complete (n : uint8_t) :
  (n < 4)%N → ∃ l, account_whitelist_operation.listing_value l = n.
Proof.
  intros Hn.
  destruct (decide (n = 0%N)) as [-> | H0];
    [by exists account_whitelist_operation.no_listing |].
  destruct (decide (n = 1%N)) as [-> | H1];
    [by exists account_whitelist_operation.white_listed |].
  destruct (decide (n = 2%N)) as [-> | H2];
    [by exists account_whitelist_operation.black_listed |].
  exists account_whitelist_operation.white_and_black_listed.
  change (3 = n)%N. lia.
Qed.

(** C5. For every [account_whitelist_operation], [validate] succeeds if
    and only if [new_listing < 4] and [fee.amount >= 0]; otherwise it
    fails with the exception of a failed assertion. *)
Theorem account_whitelist_validate :
  ∀ op : account_whitelist_operation.t,
    let ok := (account_whitelist_operation.new_listing op < 4)%N
              ∧ 0 ≤ amount (account_whitelist_operation.fee op) in
    (account_whitelist_operation.validate op = returns tt ↔ ok)
    ∧ ((∃ expr, account_whitelist_operation.validate op
                = throws (assert_exception expr)) ↔ ¬ ok).
Proof.
  intros op ok. subst ok.
  unfold account_whitelist_operation.validate.
  destruct (amount (account_whitelist_operation.fee op) >=? 0) eqn:Hfee.
  - apply Z.geb_le in Hfee.
    destruct (account_whitelist_operation.new_listing op <? 4)%N eqn:Hl.
    + apply N.ltb_lt in Hl. simpl. split; split; try done.
      * intros [expr Hexpr]. discriminate Hexpr.
      * intros Hno. exfalso. apply Hno. done.
    + apply N.ltb_ge in Hl. simpl. split; split.
      * intros H. discriminate H.
      * intros [Hlt _]. lia.
      * intros _ [Hlt _]. lia.
      * intros _. eexists. reflexivity.
  - assert (amount (account_whitelist_operation.fee op) < 0) as Hneg.
    { rewrite Z.geb_leb in Hfee. apply Z.leb_gt in Hfee. exact Hfee. }
    simpl. split; split.
    + intros H. discriminate H.
    + intros [_ Hge]. lia.
    + intros _ [_ Hge]. lia.
    + intros _. eexists. reflexivity.
Qed.

(** C6. A negative [fee.amount] does not make every [validate] fail:
    [validate] of [set_starting_cycle_asset_amount_operation] and of
    [set_chain_authority_operation] has an empty body and returns for
    every operation, also for one whose [fee.amount] is negative. *)
Theorem empty_validate_accepts_negative_fee :
  (∀ op : set_starting_cycle_asset_amount_operation.t,
     set_starting_cycle_asset_amount_operation.validate op = returns tt)
  ∧ (∀ op : set_chain_authority_operation.t,
       set_chain_authority_operation.validate op = returns tt)
  ∧ (let op := set_starting_cycle_asset_amount_operation.mk
                 (core_fee (-1)) (acct 0) 100%N [] in
     amount (set_starting_cycle_asset_amount_operation.fee op) < 0
     ∧ set_starting_cycle_asset_amount_operation.validate op = returns tt)
  ∧ (let op := set_chain_authority_operation.mk
                 (core_fee (-1)) (acct 0) (acct 1) "registrar" [] in
     amount (set_chain_authority_operation.fee op) < 0
     ∧ set_chain_authority_operation.validate op = returns tt).
Proof. repeat split. Qed.

(** C7. For every [upgrade_account_cycles_operation], whatever its fields
    hold, [validate] fails: it never returns. *)
Theorem upgrade_account_cycles_validate_fails :
  ∀ op : upgrade_account_cycles_operation.t,
    upgrade_account_cycles_operation.validate op
      = throws (assert_exception "false")
    ∧ upgrade_account_cycles_operation.validate op ≠ returns tt.
Proof. intros op. split; [reflexivity | discriminate]. Qed.

(** ** Fees *)

Section fees.
Context {PT : protocol_types}.

(** C8. For every variant whose [fee_parameters_type] is empty,
    [calculate_fee] returns 0 for every operation and every parameter
    argument. *)
Theorem calculate_fee_zero :
  (∀ (op : account_create_operation.t) k,
     account_create_operation.calculate_fee op k = 0)
  ∧ (∀ (op : tether_accounts_operation.t) k,
       tether_accounts_operation.calculate_fee op k = 0)
  ∧ (∀ (op : change_public_keys_operation.t) k,
       change_public_keys_operation.calculate_fee op k = 0)
  ∧ (∀ (op : set_roll_back_enabled_operation.t) k,
       set_roll_back_enabled_operation.calculate_fee op k = 0)
  ∧ (∀ (op : roll_back_public_keys_operation.t) k,
       roll_back_public_keys_operation.calculate_fee op k = 0)
  ∧ (∀ (op : upgrade_account_cycles_operation.t) k,
       upgrade_account_cycles_operation.calculate_fee op k = 0)
  ∧ (∀ (op : set_starting_cycle_asset_amount_operation.t) k,
       set_starting_cycle_asset_amount_operation.calculate_fee op k = 0)
  ∧ (∀ (op : set_chain_authority_operation.t) k,
       set_chain_authority_operation.calculate_fee op k = 0).
Proof. repeat split. Qed.

(** C9. For every variant, [fee_payer] returns the designated field of
    the operation as it is. *)
Theorem fee_payer_is_designated_field :
  (∀ op : account_create_operation.t,
     account_create_operation.fee_payer op
       = account_create_operation.registrar op)
  ∧ (∀ op : account_update_operation.t,
       account_update_operation.fee_payer op
         = account_update_operation.account op)
  ∧ (∀ op : change_public_keys_operation.t,
       change_public_keys_operation.fee_payer op
         = change_public_keys_operation.account op)
  ∧ (∀ op : set_roll_back_enabled_operation.t,
       set_roll_back_enabled_operation.fee_payer op
         = set_roll_back_enabled_operation.account op)
  ∧ (∀ op : upgrade_account_cycles_operation.t,
       upgrade_account_cycles_operation.fee_payer op
         = upgrade_account_cycles_operation.account op)
  ∧ (∀ op : account_whitelist_operation.t,
       account_whitelist_operation.fee_payer op
         = account_whitelist_operation.authorizing_account op)
  ∧ (∀ op : account_upgrade_operation.t,
       account_upgrade_operation.fee_payer op
         = account_upgrade_operation.account_to_upgrade op)
  ∧ (∀ op : account_transfer_operation.t,
       account_transfer_operation.fee_payer op
         = account_transfer_operation.account_id op)
  ∧ (∀ op : tether_accounts_operation.t,
       tether_accounts_operation.fee_payer op
         = tether_accounts_operation.wallet_account op)
  ∧ (∀ op : roll_back_public_keys_operation.t,
       roll_back_public_keys_operation.fee_payer op
         = roll_back_public_keys_operation.authority op)
  ∧ (∀ op : set_starting_cycle_asset_amount_operation.t,
       set_starting_cycle_asset_amount_operation.fee_payer op
         = set_starting_cycle_asset_amount_operation.issuer op)
  ∧ (∀ op : set_chain_authority_operation.t,
       set_chain_authority_operation.fee_payer op
         = set_chain_authority_operation.issuer op).
Proof. repeat split. Qed.
End fees.

(** ** Wire encoding of the extension members *)

Section wire.
Context {PT : protocol_types} {RP : raw_primitives}.

(** An extension whose fields are all absent is a zero count and nothing
    else, which is also how an empty [extensions_type] is packed. *)
Lemma pack_absent_extension :
  account_create_operation.pack_ext
    (mk_extension (account_create_operation.mk_ext None None None None))
    = pack_extensions_type []
  ∧ ext_account_update_operation.pack
      (mk_extension (ext_account_update_operation.mk None None None))
    = pack_extensions_type [].
Proof. split; reflexivity. Qed.

Lemma account_create_pack_with_extensions
    (op : account_create_operation.t)
    (e : extension account_create_operation.ext) :
  account_create_operation.pack (account_create_operation.with_extensions op e)
    = account_create_operation.pack op.
Proof. reflexivity. Qed.

Lemma account_update_pack_with_extensions
    (op : account_update_operation.t)
    (e : extension ext_account_update_operation.t) :
  account_update_operation.pack (account_update_operation.with_extensions op e)
    = account_update_operation.pack op.
Proof. reflexivity. Qed.

Lemma change_public_keys_pack_with_extensions
    (op : change_public_keys_operation.t) (e : extensions_type) :
  change_public_keys_operation.pack
    (change_public_keys_operation.with_extensions op e)
    = change_public_keys_operation.pack op.
Proof. reflexivity. Qed.

(** [with_extensions] replaces the [extensions] member and nothing else. *)
Lemma account_create_with_extensions_id (op : account_create_operation.t) :
  account_create_operation.with_extensions op
    (account_create_operation.extensions op) = op.
Proof. destruct op; reflexivity. Qed.

Lemma account_update_with_extensions_id (op : account_update_operation.t) :
  account_update_operation.with_extensions op
    (account_update_operation.extensions op) = op.
Proof. destruct op; reflexivity. Qed.

Lemma change_public_keys_with_extensions_id
    (op : change_public_keys_operation.t) :
  change_public_keys_operation.with_extensions op
    (change_public_keys_operation.extensions op) = op.
Proof. destruct op; reflexivity. Qed.

(** C4. Packing and then unpacking an operation does not give back the
    extension members of [account_create_operation],
    [account_update_operation] and [change_public_keys_operation]: their
    [FC_REFLECT] lists leave [extensions] out, so the packed form of such
    an operation is the same whatever its extensions hold, and for every
    reader, however the members are encoded, and every operation there is
    a value of [extensions] on which the round trip fails. *)
Theorem extensions_lost_on_the_wire :
  (∀ (op : account_create_operation.t)
     (unpack : stream → option account_create_operation.t),
     ∃ e, let op' := account_create_operation.with_extensions op e in
          account_create_operation.pack op' = account_create_operation.pack op
          ∧ unpack (account_create_operation.pack op') ≠ Some op')
  ∧ (∀ (op : account_update_operation.t)
       (unpack : stream → option account_update_operation.t),
       ∃ e, let op' := account_update_operation.with_extensions op e in
            account_update_operation.pack op'
              = account_update_operation.pack op
            ∧ unpack (account_update_operation.pack op') ≠ Some op')
  ∧ (∀ (op : change_public_keys_operation.t)
       (unpack : stream → option change_public_keys_operation.t),
       ∃ e, let op' := change_public_keys_operation.with_extensions op e in
            change_public_keys_operation.pack op'
              = change_public_keys_operation.pack op
            ∧ unpack (change_public_keys_operation.pack op') ≠ Some op').
Proof.
  split; [| split]; intros op unpack.
  - set (absent := mk_extension
                     (account_create_operation.mk_ext None None None None)).
    set (null := mk_extension
                   (account_create_operation.mk_ext (Some tt) None None None)).
    destruct (unpack (account_create_operation.pack op)) as [r |] eqn:Hr.
    + destruct (account_create_operation.extensions r) as [v] eqn:Hv.
      destruct (account_create_operation.null_ext v) eqn:Hn.
      * exists absent. simpl. split; [reflexivity |].
        rewrite account_create_pack_with_extensions, Hr.
        intros [= ->]. simpl in Hv. injection Hv as <-. discriminate Hn.
      * exists null. simpl. split; [reflexivity |].
        rewrite account_create_pack_with_extensions, Hr.
        intros [= ->]. simpl in Hv. injection Hv as <-. discriminate Hn.
    + exists absent. simpl. split; [reflexivity |].
      rewrite account_create_pack_with_extensions, Hr. discriminate.
  - set (absent := mk_extension
                     (ext_account_update_operation.mk None None None)).
    set (null := mk_extension
                   (ext_account_update_operation.mk (Some tt) None None)).
    destruct (unpack (account_update_operation.pack op)) as [r |] eqn:Hr.
    + destruct (account_update_operation.extensions r) as [v] eqn:Hv.
      destruct (ext_account_update_operation.null_ext v) eqn:Hn.
      * exists absent. simpl. split; [reflexivity |].
        rewrite account_update_pack_with_extensions, Hr.
        intros [= ->]. simpl in Hv. injection Hv as <-. discriminate Hn.
      * exists null. simpl. split; [reflexivity |].
        rewrite account_update_pack_with_extensions, Hr.
        intros [= ->]. simpl in Hv. injection Hv as <-. discriminate Hn.
    + exists absent. simpl. split; [reflexivity |].
      rewrite account_update_pack_with_extensions, Hr. discriminate.
  - destruct (unpack (change_public_keys_operation.pack op)) as [r |] eqn:Hr.
    + destruct (change_public_keys_operation.extensions r) as [| x l] eqn:Hv.
      * exists [future_void_t tt]. simpl. split; [reflexivity |].
        rewrite change_public_keys_pack_with_extensions, Hr.
        intros [= ->]. discriminate Hv.
      * exists []. simpl. split; [reflexivity |].
        rewrite change_public_keys_pack_with_extensions, Hr.
        intros [= ->]. discriminate Hv.
    + exists []. simpl. split; [reflexivity |].
      rewrite change_public_keys_pack_with_extensions, Hr. discriminate.
Qed.
End wire.

(** ** The definitions on sample operations *)

Example update_without_owner_requires_active :
  account_update_operation.get_required_owner_authorities
    (sample_update None None) ∅ = ∅
  ∧ account_update_operation.get_required_active_authorities
      (sample_update None None) ∅ = {[ acct 20 ]}.
Proof. split; vm_compute; reflexivity. Qed.

Example update_with_owner_requires_owner :
  account_update_operation.get_required_owner_authorities
    (sample_update (Some 1%N) None) ∅ = {[ acct 20 ]}
  ∧ account_update_operation.get_required_active_authorities
      (sample_update (Some 1%N) None) ∅ = ∅.
Proof. split; vm_compute; reflexivity. Qed.

Example update_with_special_owner_requires_owner :
  account_update_operation.get_required_owner_authorities
    (sample_update None (Some 2%N)) {[ acct 1 ]} = {[ acct 1; acct 20 ]}
  ∧ account_update_operation.get_required_active_authorities
      (sample_update None (Some 2%N)) {[ acct 1 ]} = {[ acct 1 ]}.
Proof. split; vm_compute; reflexivity. Qed.

Example change_keys_requires_one_class :
  change_public_keys_operation.get_required_owner_authorities
    (sample_change_keys (Some 1%N)) ∅ = {[ acct 30 ]}
  ∧ change_public_keys_operation.get_required_active_authorities
      (sample_change_keys (Some 1%N)) ∅ = ∅
  ∧ change_public_keys_operation.get_required_owner_authorities
      (sample_change_keys None) ∅ = ∅
  ∧ change_public_keys_operation.get_required_active_authorities
      (sample_change_keys None) ∅ = {[ acct 30 ]}.
Proof. repeat split; vm_compute; reflexivity. Qed.

Example create_requires_registrar_and_issuer :
  account_create_operation.get_required_active_authorities
    (sample_create None) ∅ = {[ acct 10 ]}
  ∧ account_create_operation.get_required_active_authorities
      (sample_create (Some (mk_asset_id 3, acct 12))) ∅
    = {[ acct 10; acct 12 ]}
  ∧ account_create_operation.get_required_active_authorities
      (sample_create (Some (mk_asset_id 3, acct 10))) ∅ = {[ acct 10 ]}.
Proof. repeat split; vm_compute; reflexivity. Qed.

Example tether_requires_both :
  tether_accounts_operation.get_required_active_authorities
    (tether_accounts_operation.mk (core_fee 5) (acct 40) (acct 41) []) ∅
  = {[ acct 40; acct 41 ]}
  ∧ tether_accounts_operation.get_required_active_authorities
      (tether_accounts_operation.mk (core_fee 0) (acct 40) (acct 40) []) ∅
    = {[ acct 40 ]}.
Proof. split; vm_compute; reflexivity. Qed.

Example whitelist_validate_samples :
  account_whitelist_operation.validate
    (account_whitelist_operation.mk (core_fee 0) (acct 1) (acct 2) 3%N [])
  = returns tt
  ∧ account_whitelist_operation.validate
      (account_whitelist_operation.mk (core_fee 0) (acct 1) (acct 2) 4%N [])
    = throws (assert_exception "new_listing < 0x4")
  ∧ account_whitelist_operation.validate
      (account_whitelist_operation.mk (core_fee (-1)) (acct 1) (acct 2) 0%N [])
    = throws (assert_exception "fee.amount >= 0")
  ∧ account_whitelist_operation.validate
      (account_whitelist_operation.mk (core_fee (-1)) (acct 1) (acct 2) 255%N
         [])
    = throws (assert_exception "fee.amount >= 0").
Proof. repeat split. Qed.

(** An [account_create_operation] with buyback options, an
    [account_update_operation] with an owner special authority and a
    [change_public_keys_operation] with an extension set are packed to the
    bytes of the same operations without them. *)
Example sample_extensions_not_packed
    (RP : @raw_primitives sample_types) :
  (sample_create (Some (mk_asset_id 3, acct 12)) ≠ sample_create None
   ∧ account_create_operation.pack
       (sample_create (Some (mk_asset_id 3, acct 12)))
     = account_create_operation.pack (sample_create None))
  ∧ (sample_update None (Some 2%N) ≠ sample_update None None
     ∧ account_update_operation.pack (sample_update None (Some 2%N))
       = account_update_operation.pack (sample_update None None))
  ∧ (change_public_keys_operation.with_extensions
       (sample_change_keys None) [future_void_t tt]
       ≠ sample_change_keys None
     ∧ change_public_keys_operation.pack
         (change_public_keys_operation.with_extensions
            (sample_change_keys None) [future_void_t tt])
       = change_public_keys_operation.pack (sample_change_keys None)).
Proof. repeat split; discriminate. Qed.

(** ** Further properties of the required-authority members *)

Section emission.
Context {PT : protocol_types}.

(** What a member returns is what it returns on the empty set, joined
    with the set it was given. *)
Lemma emit_union (m : authority_member) (a : flat_set.t) :
  emit m a = emit m ∅ ∪ a.
Proof.
  destruct m as [op | op | op | op | op | op]; simpl.
  - unfold account_create_operation.get_required_active_authorities.
    destruct (account_create_operation.buyback_options _);
      unfold flat_set.insert; set_solver.
  - unfold account_update_operation.get_required_owner_authorities.
    destruct (account_update_operation.is_owner_update op);
      unfold flat_set.insert; set_solver.
  - unfold account_update_operation.get_required_active_authorities.
    destruct (account_update_operation.is_owner_update op); simpl;
      unfold flat_set.insert; set_solver.
  - unfold tether_accounts_operation.get_required_active_authorities,
      flat_set.insert.
    set_solver.
  - unfold change_public_keys_operation.get_required_owner_authorities.
    destruct (change_public_keys_operation.is_owner_update op);
      unfold flat_set.insert; set_solver.
  - unfold change_public_keys_operation.get_required_active_authorities.
    destruct (change_public_keys_operation.is_owner_update op); simpl;
      unfold flat_set.insert; set_solver.
Qed.

(** X5. Each of the six required-authority members returns the set it
    was given joined with a set that depends on the operation alone, the
    one it returns on the empty set. *)
Theorem required_authorities_join :
  (∀ (op : account_create_operation.t) (a : flat_set.t),
     account_create_operation.get_required_active_authorities op a
     = account_create_operation.get_required_active_authorities op ∅ ∪ a)
  ∧ (∀ (op : account_update_operation.t) (a : flat_set.t),
       account_update_operation.get_required_owner_authorities op a
       = account_update_operation.get_required_owner_authorities op ∅ ∪ a
       ∧ account_update_operation.get_required_active_authorities op a
         = account_update_operation.get_required_active_authorities op ∅ ∪ a)
  ∧ (∀ (op : tether_accounts_operation.t) (a : flat_set.t),
       tether_accounts_operation.get_required_active_authorities op a
       = tether_accounts_operation.get_required_active_authorities op ∅ ∪ a)
  ∧ (∀ (op : change_public_keys_operation.t) (a : flat_set.t),
       change_public_keys_operation.get_required_owner_authorities op a
       = change_public_keys_operation.get_required_owner_authorities op ∅ ∪ a
       ∧ change_public_keys_operation.get_required_active_authorities op a
         = change_public_keys_operation.get_required_active_authorities op ∅
           ∪ a).
Proof.
  split; [| split; [| split]]; intros op a.
  - exact (emit_union (create_active op) a).
  - split; [exact (emit_union (update_owner op) a)
           | exact (emit_union (update_active op) a)].
  - exact (emit_union (tether_active op) a).
  - split; [exact (emit_union (change_keys_owner op) a)
           | exact (emit_union (change_keys_active op) a)].
Qed.

(** X6. Calling any two of the members on the same set gives the same
    set in either order, and calling one member twice gives what calling
    it once gives. *)
Theorem required_authorities_order_irrelevant :
  ∀ (m1 m2 : authority_member) (a : flat_set.t),
    emit m1 (emit m2 a) = emit m2 (emit m1 a)
    ∧ emit m1 (emit m1 a) = emit m1 a.
Proof.
  intros m1 m2 a.
  rewrite (emit_union m1 (emit m2 a)), (emit_union m2 (emit m1 a)),
    (emit_union m1 (emit m1 a)), (emit_union m2 a), (emit_union m1 a).
  split; set_solver.
Qed.

(** X4. The fee payer is among the accounts the operation's own members
    require: in the active set for [account_create_operation] and
    [tether_accounts_operation], and in the owner set or in the active
    set for [account_update_operation] and
    [change_public_keys_operation]. *)
Theorem fee_payer_is_required :
  (∀ (op : account_create_operation.t) (active : flat_set.t),
     account_create_operation.fee_payer op
     ∈ account_create_operation.get_required_active_authorities op active)
  ∧ (∀ (op : account_update_operation.t) (owner active : flat_set.t),
       account_update_operation.fee_payer op
       ∈ account_update_operation.get_required_owner_authorities op owner
       ∨ account_update_operation.fee_payer op
         ∈ account_update_operation.get_required_active_authorities op active)
  ∧ (∀ (op : tether_accounts_operation.t) (active : flat_set.t),
       tether_accounts_operation.fee_payer op
       ∈ tether_accounts_operation.get_required_active_authorities op active)
  ∧ (∀ (op : change_public_keys_operation.t) (owner active : flat_set.t),
       change_public_keys_operation.fee_payer op
       ∈ change_public_keys_operation.get_required_owner_authorities op owner
       ∨ change_public_keys_operation.fee_payer op
         ∈ change_public_keys_operation.get_required_active_authorities
             op active).
Proof.
  split; [| split; [| split]].
  - intros op active. apply elem_of_account_create_required_active.
    right; left. reflexivity.
  - intros op owner active.
    unfold account_update_operation.get_required_owner_authorities,
      account_update_operation.get_required_active_authorities,
      account_update_operation.fee_payer.
    destruct (account_update_operation.is_owner_update op); simpl;
      [left | right]; apply elem_of_flat_set_insert; by left.
  - intros op active.
    unfold tether_accounts_operation.get_required_active_authorities,
      tether_accounts_operation.fee_payer.
    rewrite !elem_of_flat_set_insert. right; left. reflexivity.
  - intros op owner active.
    unfold change_public_keys_operation.get_required_owner_authorities,
      change_public_keys_operation.get_required_active_authorities,
      change_public_keys_operation.fee_payer.
    destruct (change_public_keys_operation.is_owner_update op); simpl;
      [left | right]; apply elem_of_flat_set_insert; by left.
Qed.

(** X7. What an [account_update_operation] requires depends on its
    [account] and on whether [owner] and the owner special authority are
    present, and on nothing else: not on what the owner authority holds,
    nor on [active], [new_options], the active special authority or the
    fee. *)
Theorem account_update_requirement_depends_on
    (op op' : account_update_operation.t) (a : flat_set.t) :
  account_update_operation.account op = account_update_operation.account op' →
  valid (account_update_operation.owner op)
    = valid (account_update_operation.owner op') →
  valid (ext_account_update_operation.owner_special_authority
           (value (account_update_operation.extensions op)))
    = valid (ext_account_update_operation.owner_special_authority
               (value (account_update_operation.extensions op'))) →
  account_update_operation.get_required_owner_authorities op a
    = account_update_operation.get_required_owner_authorities op' a
  ∧ account_update_operation.get_required_active_authorities op a
    = account_update_operation.get_required_active_authorities op' a.
Proof.
  intros Hacc Howner Hspecial.
  unfold account_update_operation.get_required_owner_authorities,
    account_update_operation.get_required_active_authorities,
    account_update_operation.is_owner_update.
  rewrite Hacc, Howner, Hspecial. split; reflexivity.
Qed.
(** X13. How many accounts an operation requires on its own: a
    [tether_accounts_operation] requires two, or one when the wallet and
    the vault are the same account; an [account_create_operation]
    requires the registrar alone, and the buyback issuer besides when
    there are buyback options and their issuer is not the registrar. *)
Theorem required_active_count :
  (∀ op : tether_accounts_operation.t,
     size (tether_accounts_operation.get_required_active_authorities op ∅)
     = if decide (tether_accounts_operation.wallet_account op
                  = tether_accounts_operation.vault_account op)
       then 1%nat else 2%nat)
  ∧ (∀ op : account_create_operation.t,
       size (account_create_operation.get_required_active_authorities op ∅)
       = match account_create_operation.buyback_options
                 (value (account_create_operation.extensions op)) with
         | Some b =>
             if decide (asset_to_buy_issuer b
                        = account_create_operation.registrar op)
             then 1%nat else 2%nat
         | None => 1%nat
         end).
Proof.
  split; intros op.
  - unfold tether_accounts_operation.get_required_active_authorities,
      flat_set.insert.
    rewrite (right_id_L ∅ (∪)).
    destruct (decide (_ = _)) as [-> | Hne].
    + rewrite (idemp_L (∪)). apply size_singleton.
    + rewrite size_union by set_solver. rewrite !size_singleton. reflexivity.
  - unfold account_create_operation.get_required_active_authorities,
      flat_set.insert.
    rewrite (right_id_L ∅ (∪)).
    destruct (account_create_operation.buyback_options _) as [b |].
    + destruct (decide (_ = _)) as [-> | Hne].
      * rewrite (idemp_L (∪)). apply size_singleton.
      * rewrite size_union by set_solver. rewrite !size_singleton.
        reflexivity.
    + apply size_singleton.
Qed.
End emission.

Lemma account_update_requirement_depends_on_witness :
  account_update_operation.get_required_owner_authorities
    (sample_update (Some 1%N) (Some 2%N)) {[ acct 1 ]}
  = account_update_operation.get_required_owner_authorities
      (account_update_operation.mk (PT := sample_types)
         (core_fee 9) (acct 20) (Some 7%N) (Some 8%N) (Some sample_options)
         (mk_extension
            (ext_account_update_operation.mk (PT := sample_types)
               (Some tt) (Some 5%N) (Some 6%N))))
      {[ acct 1 ]}
  ∧ account_update_operation.get_required_active_authorities
      (sample_update (Some 1%N) (Some 2%N)) {[ acct 1 ]}
    = account_update_operation.get_required_active_authorities
        (account_update_operation.mk (PT := sample_types)
           (core_fee 9) (acct 20) (Some 7%N) (Some 8%N) (Some sample_options)
           (mk_extension
              (ext_account_update_operation.mk (PT := sample_types)
                 (Some tt) (Some 5%N) (Some 6%N))))
        {[ acct 1 ]}.
Proof.
  apply (account_update_requirement_depends_on (PT := sample_types));
    reflexivity.
Defined.

(** ** Further properties of [account_whitelist_operation::validate] *)


(** X2. When the fee is not negative, [validate] accepts [new_listing]
    exactly when it is the value of an [account_listing] enumerator, and
    no two enumerators share a value. *)
Theorem account_whitelist_accepts_enumerators
    (op : account_whitelist_operation.t) :
  0 ≤ amount (account_whitelist_operation.fee op) →
  (account_whitelist_operation.validate op = returns tt
   ↔ ∃ l, account_whitelist_operation.listing_value l
          = account_whitelist_operation.new_listing op)
  ∧ (∀ l l', account_whitelist_operation.listing_value l
             = account_whitelist_operation.listing_value l' → l = l').
Proof.
  intros Hfee. split.
  - unfold account_whitelist_operation.validate.
    assert (FC_ASSERT (amount (account_whitelist_operation.fee op) >=? 0)
              "fee.amount >= 0" = returns tt) as ->.
    { apply FC_ASSERT_returns. apply Z.geb_le. exact Hfee. }
    simpl. rewrite FC_ASSERT_returns, N.ltb_lt. split.
    + apply listing_value_complete.
    + intros [l <-]. apply listing_value_lt.
  - intros l l'. destruct l, l'; vm_compute; intros H;
      first [reflexivity | discriminate H].
Qed.

Lemma account_whitelist_accepts_enumerators_witness :
  (account_whitelist_operation.validate
     (account_whitelist_operation.mk (core_fee 0) (acct 1) (acct 2) 3%N [])
   = returns tt
   ↔ ∃ l, account_whitelist_operation.listing_value l = 3%N)
  ∧ (∀ l l', account_whitelist_operation.listing_value l
             = account_whitelist_operation.listing_value l' → l = l').
Proof.
  apply (account_whitelist_accepts_enumerators
           (account_whitelist_operation.mk
              (core_fee 0) (acct 1) (acct 2) 3%N [])).
  simpl. lia.
Defined.

(** The numbers below 4 are those that the mask 3 leaves as they are. *)
Lemma land_3_iff_lt_4 (n : N) : N.land n 3 = n ↔ (n < 4)%N.
Proof.
  change 3%N with (N.ones 2). rewrite N.land_ones.
  change (2 ^ 2)%N with 4%N. split.
  - intros <-. apply N.mod_lt. lia.
  - intros Hlt. apply N.mod_small. exact Hlt.
Qed.

(** X3. [new_listing] is a bitfield of the enumerators: when the fee is
    not negative, [validate] accepts exactly the values in which no bit
    is set other than those of [white_listed] and [black_listed], that
    is, the values that [white_and_black_listed] covers. *)
Theorem account_whitelist_accepts_flag_bits
    (op : account_whitelist_operation.t) :
  0 ≤ amount (account_whitelist_operation.fee op) →
  (account_whitelist_operation.validate op = returns tt
   ↔ N.land (account_whitelist_operation.new_listing op)
       (account_whitelist_operation.listing_value
          account_whitelist_operation.white_and_black_listed)
     = account_whitelist_operation.new_listing op).
Proof.
  intros Hfee.
  unfold account_whitelist_operation.validate.
  assert (FC_ASSERT (amount (account_whitelist_operation.fee op) >=? 0)
            "fee.amount >= 0" = returns tt) as ->.
  { apply FC_ASSERT_returns. apply Z.geb_le. exact Hfee. }
  change (account_whitelist_operation.listing_value
            account_whitelist_operation.white_and_black_listed) with 3%N.
  simpl. rewrite FC_ASSERT_returns, N.ltb_lt, land_3_iff_lt_4. reflexivity.
Qed.

Lemma account_whitelist_accepts_flag_bits_witness :
  account_whitelist_operation.validate
    (account_whitelist_operation.mk (core_fee 7) (acct 1) (acct 2) 2%N [])
  = returns tt
  ↔ N.land 2 3 = 2%N.
Proof.
  apply (account_whitelist_accepts_flag_bits
           (account_whitelist_operation.mk
              (core_fee 7) (acct 1) (acct 2) 2%N [])).
  simpl. lia.
Defined.

(** ** Reading the packed form back *)

Section unambiguity.
Context {PT : protocol_types} {RP : raw_primitives} {WD : wire_domains}.
Hypothesis U : unambiguous_primitives RP WD.

Lemma unambiguous_optional {T} (D : T → Prop) (p : T → stream) :
  unambiguous D p → unambiguous (dom_optional D) (pack_optional p).
Proof.
  intros Hp [x |] [y |] r r' Dx Dy H; simpl in *;
    rewrite <- ?app_assoc in H;
    apply (unambiguous_bool _ _ U) in H as [Hb H]; try exact I;
    try discriminate Hb.
  - apply Hp in H as [-> ->]; done.
  - done.
Qed.

Lemma unambiguous_elements {T} (D : T → Prop) (p : T → stream) :
  unambiguous D p →
  ∀ (l l' : list T) (r r' : stream),
    Forall D l → Forall D l' → length l = length l' →
    concat (map p l) ++ r = concat (map p l') ++ r' → l = l' ∧ r = r'.
Proof.
  intros Hp l.
  induction l as [| x l IH]; intros [| y l'] r r' Dl Dl' Hlen H;
    try discriminate Hlen.
  - done.
  - simpl in H. rewrite <- !app_assoc in H.
    apply Forall_cons in Dl as [Dx Dl]. apply Forall_cons in Dl' as [Dy Dl'].
    apply Hp in H as [-> H]; [| done | done].
    apply IH in H as [-> ->]; [done | done | done |].
    simpl in Hlen. lia.
Qed.

Lemma unambiguous_flat_set {T} (D : T → Prop) (p : T → stream) :
  unambiguous D p → unambiguous (dom_flat_set D) (pack_flat_set p).
Proof.
  intros Hp l l' r r' [Dn Dl] [Dn' Dl'] H.
  unfold pack_flat_set in H. rewrite <- !app_assoc in H.
  apply (unambiguous_unsigned_int _ _ U) in H as [Hlen H]; [| done | done].
  apply Nat2N.inj in Hlen.
  by apply (unambiguous_elements D p Hp).
Qed.

Lemma unambiguous_extensions_type :
  unambiguous dom_extensions_type pack_extensions_type.
Proof.
  apply unambiguous_flat_set.
  intros [[]] [[]] r r' _ _ H. split; [reflexivity |].
  simpl in H. rewrite <- !app_assoc in H.
  apply app_inv_head in H. exact H.
Qed.

(** Reads one member off both sides of [H]. *)
Ltac peel_with H lem :=
  let E := fresh "E" in
  let L := fresh "L" in
  pose proof lem as L; unfold unambiguous in L;
  apply L in H; clear L;
  [destruct H as [E H]; try subst | first [assumption | exact I] ..].

Ltac peel H :=
  first
    [ peel_with H (unambiguous_asset _ _ U)
    | peel_with H (unambiguous_account_id _ _ U)
    | peel_with H (unambiguous_uint8 _ _ U)
    | peel_with H (unambiguous_uint16 _ _ U)
    | peel_with H (unambiguous_uint32 _ _ U)
    | peel_with H (unambiguous_bool _ _ U)
    | peel_with H (unambiguous_string _ _ U)
    | peel_with H (unambiguous_authority _ _ U)
    | peel_with H (unambiguous_public_key _ _ U)
    | peel_with H (unambiguous_flat_set _ _ (unambiguous_vote_id _ _ U))
    | peel_with H (unambiguous_optional _ _ (unambiguous_authority _ _ U))
    | peel_with H unambiguous_extensions_type ].

(** Opens two operations and their domain facts, then reads the members
    off one after the other. *)
Ltac read_back :=
  let H := fresh "H" in
  intros [] [] ? ? ? ? H; simpl in *;
  repeat match goal with F : _ ∧ _ |- _ => destruct F end;
  rewrite <- ?app_assoc in H;
  repeat peel H.

Lemma unambiguous_account_options :
  unambiguous account_options_fits account_options.pack.
Proof.
  unfold unambiguous, account_options_fits, account_options.pack.
  read_back. done.
Qed.
Ltac peel_options H :=
  first
    [ peel_with H unambiguous_account_options
    | peel_with H (unambiguous_optional _ _ unambiguous_account_options) ].

Lemma account_create_reads_back
    (op op' : account_create_operation.t) (r r' : stream) :
  account_create_fits op → account_create_fits op' →
  account_create_operation.pack op ++ r
    = account_create_operation.pack op' ++ r' →
  op' = account_create_operation.with_extensions op
          (account_create_operation.extensions op')
  ∧ r = r'.
Proof.
  revert op op' r r'.
  unfold account_create_fits, account_create_operation.pack.
  read_back. peel_options H. done.
Qed.

Lemma account_update_reads_back
    (op op' : account_update_operation.t) (r r' : stream) :
  account_update_fits op → account_update_fits op' →
  account_update_operation.pack op ++ r
    = account_update_operation.pack op' ++ r' →
  op' = account_update_operation.with_extensions op
          (account_update_operation.extensions op')
  ∧ r = r'.
Proof.
  revert op op' r r'.
  unfold account_update_fits, account_update_operation.pack.
  read_back. peel_options H. done.
Qed.

Lemma change_public_keys_reads_back
    (op op' : change_public_keys_operation.t) (r r' : stream) :
  change_public_keys_fits op → change_public_keys_fits op' →
  change_public_keys_operation.pack op ++ r
    = change_public_keys_operation.pack op' ++ r' →
  op' = change_public_keys_operation.with_extensions op
          (change_public_keys_operation.extensions op')
  ∧ r = r'.
Proof.
  revert op op' r r'.
  unfold change_public_keys_fits, change_public_keys_operation.pack.
  read_back. done.
Qed.

(** X11. For the nine operations whose [FC_REFLECT] lists every member,
    the packed form tells the operation: when the member encoders are
    unambiguous on their domains, two operations that fit the wire and
    have the same packed form, each followed by anything, are the same
    operation followed by the same bytes. *)
Theorem reflected_operations_unambiguous :
  unambiguous account_whitelist_fits account_whitelist_operation.pack
  ∧ unambiguous account_upgrade_fits account_upgrade_operation.pack
  ∧ unambiguous account_transfer_fits account_transfer_operation.pack
  ∧ unambiguous tether_accounts_fits tether_accounts_operation.pack
  ∧ unambiguous set_roll_back_enabled_fits
      set_roll_back_enabled_operation.pack
  ∧ unambiguous roll_back_public_keys_fits
      roll_back_public_keys_operation.pack
  ∧ unambiguous upgrade_account_cycles_fits
      upgrade_account_cycles_operation.pack
  ∧ unambiguous set_starting_cycle_asset_amount_fits
      set_starting_cycle_asset_amount_operation.pack
  ∧ unambiguous set_chain_authority_fits set_chain_authority_operation.pack.
Proof.
  unfold unambiguous, account_whitelist_fits, account_upgrade_fits,
    account_transfer_fits, tether_accounts_fits, set_roll_back_enabled_fits,
    roll_back_public_keys_fits, upgrade_account_cycles_fits,
    set_starting_cycle_asset_amount_fits, set_chain_authority_fits,
    account_whitelist_operation.pack, account_upgrade_operation.pack,
    account_transfer_operation.pack, tether_accounts_operation.pack,
    set_roll_back_enabled_operation.pack,
    roll_back_public_keys_operation.pack,
    upgrade_account_cycles_operation.pack,
    set_starting_cycle_asset_amount_operation.pack,
    set_chain_authority_operation.pack.
  repeat apply conj; read_back; done.
Qed.

(** X12. For [account_create_operation], [account_update_operation] and
    [change_public_keys_operation] the packed form tells every member
    but [extensions]: when the member encoders are unambiguous on their
    domains, two operations that fit the wire and have the same packed
    form differ in their extensions at most. *)
Theorem packed_form_loses_extensions_only :
  (∀ (op op' : account_create_operation.t) (r r' : stream),
     account_create_fits op → account_create_fits op' →
     account_create_operation.pack op ++ r
       = account_create_operation.pack op' ++ r' →
     op' = account_create_operation.with_extensions op
             (account_create_operation.extensions op')
     ∧ r = r')
  ∧ (∀ (op op' : account_update_operation.t) (r r' : stream),
       account_update_fits op → account_update_fits op' →
       account_update_operation.pack op ++ r
         = account_update_operation.pack op' ++ r' →
       op' = account_update_operation.with_extensions op
               (account_update_operation.extensions op')
       ∧ r = r')
  ∧ (∀ (op op' : change_public_keys_operation.t) (r r' : stream),
       change_public_keys_fits op → change_public_keys_fits op' →
       change_public_keys_operation.pack op ++ r
         = change_public_keys_operation.pack op' ++ r' →
       op' = change_public_keys_operation.with_extensions op
               (change_public_keys_operation.extensions op')
       ∧ r = r').
Proof.
  split; [| split].
  - exact account_create_reads_back.
  - exact account_update_reads_back.
  - exact change_public_keys_reads_back.
Qed.
End unambiguity.

(** ** The sample encoders are unambiguous *)

Lemma le_bytes_length (k : nat) (n : N) : length (le_bytes k n) = k.
Proof.
  revert n. induction k as [| k IH]; intros n; simpl; [| rewrite IH]; done.
Qed.

Lemma byte_of_N_inj (n m : N) :
  (n < 256)%N → (m < 256)%N → byte_of_N n = byte_of_N m → n = m.
Proof.
  intros Hn Hm. unfold byte_of_N.
  destruct (Byte.of_N n) as [b |] eqn:En;
    [| apply Byte.of_N_None_iff in En; lia].
  destruct (Byte.of_N m) as [c |] eqn:Em;
    [| apply Byte.of_N_None_iff in Em; lia].
  simpl. intros ->.
  apply Byte.to_of_N in En, Em. congruence.
Qed.

Lemma fits_bytes_succ (k : nat) (n : N) :
  fits_bytes (S k) n → fits_bytes k (n / 256).
Proof.
  unfold fits_bytes. rewrite Nat2N.inj_succ, N.pow_succ_r'.
  intros Hn. apply N.Div0.div_lt_upper_bound. exact Hn.
Qed.

Lemma le_bytes_inj (k : nat) :
  ∀ n m : N, fits_bytes k n → fits_bytes k m →
             le_bytes k n = le_bytes k m → n = m.
Proof.
  induction k as [| k IH]; intros n m Hn Hm H.
  - unfold fits_bytes in *. simpl in *. lia.
  - simpl in H. injection H as Hhead Htail.
    apply byte_of_N_inj in Hhead; [| by apply N.mod_lt ..].
    apply IH in Htail; [| by apply fits_bytes_succ ..].
    rewrite (N.Div0.div_mod n 256), (N.Div0.div_mod m 256).
    congruence.
Qed.

Lemma unambiguous_le_bytes (k : nat) : unambiguous (fits_bytes k) (le_bytes k).
Proof.
  intros x y r r' Dx Dy H.
  apply app_inj_1 in H as [H ->]; [| by rewrite !le_bytes_length].
  split; [by apply (le_bytes_inj k) | done].
Qed.

Lemma int64_mod_inj (a b : Z) :
  - 2 ^ 63 ≤ a < 2 ^ 63 → - 2 ^ 63 ≤ b < 2 ^ 63 →
  Z.to_N (a mod 2 ^ 64) = Z.to_N (b mod 2 ^ 64) → a = b.
Proof.
  intros Ha Hb H.
  pose proof (Z.mod_pos_bound a (2 ^ 64) ltac:(lia)) as Ba.
  pose proof (Z.mod_pos_bound b (2 ^ 64) ltac:(lia)) as Bb.
  apply Z2N.inj in H; [| lia | lia].
  pose proof (Z.div_mod a (2 ^ 64) ltac:(lia)) as Ea.
  pose proof (Z.div_mod b (2 ^ 64) ltac:(lia)) as Eb.
  lia.
Qed.

Lemma fits_bytes_int64 (a : Z) : fits_bytes 8 (Z.to_N (a mod 2 ^ 64)).
Proof.
  pose proof (Z.mod_pos_bound a (2 ^ 64) ltac:(lia)) as Ba.
  unfold fits_bytes. change (256 ^ N.of_nat 8)%N with (Z.to_N (2 ^ 64)).
  apply Z2N.inj_lt; lia.
Qed.

Lemma sample_unambiguous :
  unambiguous_primitives sample_primitives sample_domains.
Proof.
  split;
    cbv [sample_primitives sample_domains pack_unsigned_int pack_uint8
         pack_uint16 pack_uint32 pack_bool pack_string pack_asset
         pack_account_id pack_authority pack_special_authority
         pack_public_key pack_vote_id pack_buyback_account_options
         dom_unsigned_int dom_string dom_asset dom_account_id dom_authority
         dom_special_authority dom_public_key dom_vote_id
         dom_buyback_account_options].
  - exact (unambiguous_le_bytes 4).
  - exact (unambiguous_le_bytes 1).
  - exact (unambiguous_le_bytes 2).
  - exact (unambiguous_le_bytes 4).
  - intros [] [] r r' _ _ H; simpl in H; injection H as H;
      first [done | discriminate].
  - intros s s' r r' Ds Ds' H. rewrite <- !app_assoc in H.
    apply (unambiguous_le_bytes 4) in H as [Hlen H]; [| done | done].
    apply Nat2N.inj in Hlen.
    apply app_inj_1 in H as [H ->]; [| done].
    split; [| done].
    rewrite <- (string_of_list_byte_of_string s),
      <- (string_of_list_byte_of_string s'), H.
    reflexivity.
  - intros [a [i]] [b [j]] r r' [Da Di] [Db Dj] H;
      cbn [amount asset_id asset_instance account_instance fst snd] in *.
    rewrite <- !app_assoc in H.
    apply (unambiguous_le_bytes 8) in H as [Hab H];
      [| apply fits_bytes_int64 ..].
    apply (unambiguous_le_bytes 8) in H as [-> ->]; [| done | done].
    apply int64_mod_inj in Hab as ->; done.
  - intros [i] [j] r r' Di Dj H;
      cbn [amount asset_id asset_instance account_instance fst snd] in *.
    apply (unambiguous_le_bytes 8) in H as [-> ->]; done.
  - exact (unambiguous_le_bytes 4).
  - exact (unambiguous_le_bytes 4).
  - exact (unambiguous_le_bytes 33).
  - exact (unambiguous_le_bytes 4).
  - intros [[i] [j]] [[i'] [j']] r r' [Di Dj] [Di' Dj'] H;
      cbn [amount asset_id asset_instance account_instance fst snd] in *.
    rewrite <- !app_assoc in H.
    apply (unambiguous_le_bytes 8) in H as [-> H]; [| done | done].
    apply (unambiguous_le_bytes 8) in H as [-> ->]; done.
Qed.

(** ** What the packed form says about the required authorities *)

Section requirement_on_the_wire.
Context {PT : protocol_types} {RP : raw_primitives}.

(** X8. The packed form of an [account_update_operation] does not tell
    which authority it requires: with no new owner authority, an
    operation whose owner special authority is set and the same
    operation without it have the same packed form, yet the first
    requires the owner authority of [account] and the second its active
    authority. *)
Theorem account_update_bytes_hide_requirement
    (op : account_update_operation.t)
    (e e' : extension ext_account_update_operation.t) :
  account_update_operation.owner op = None →
  is_Some (ext_account_update_operation.owner_special_authority (value e)) →
  ext_account_update_operation.owner_special_authority (value e') = None →
  let special := account_update_operation.with_extensions op e in
  let plain := account_update_operation.with_extensions op e' in
  account_update_operation.pack special = account_update_operation.pack plain
  ∧ account_update_operation.get_required_owner_authorities special ∅
    = {[ account_update_operation.account op ]}
  ∧ account_update_operation.get_required_active_authorities special ∅ = ∅
  ∧ account_update_operation.get_required_owner_authorities plain ∅ = ∅
  ∧ account_update_operation.get_required_active_authorities plain ∅
    = {[ account_update_operation.account op ]}.
Proof.
  intros Howner [sa Hsa] Hnone special plain. subst special plain.
  unfold account_update_operation.get_required_owner_authorities,
    account_update_operation.get_required_active_authorities,
    account_update_operation.is_owner_update, flat_set.insert.
  simpl. rewrite Howner, Hsa, Hnone. simpl.
  repeat split; set_solver.
Qed.

(** X9. The packed form of an [account_create_operation] does not tell
    whether the buyback issuer is required: an operation with buyback
    options and the same operation without them have the same packed
    form, yet the issuer, when it is not the registrar, is required by
    the first and not by the second. *)
Theorem account_create_bytes_hide_requirement
    (op : account_create_operation.t)
    (e e' : extension account_create_operation.ext)
    (b : buyback_account_options) :
  account_create_operation.buyback_options (value e) = Some b →
  account_create_operation.buyback_options (value e') = None →
  asset_to_buy_issuer b ≠ account_create_operation.registrar op →
  let buying := account_create_operation.with_extensions op e in
  let plain := account_create_operation.with_extensions op e' in
  account_create_operation.pack buying = account_create_operation.pack plain
  ∧ asset_to_buy_issuer b
    ∈ account_create_operation.get_required_active_authorities buying ∅
  ∧ asset_to_buy_issuer b
    ∉ account_create_operation.get_required_active_authorities plain ∅.
Proof.
  intros Hsome Hnone Hissuer buying plain. subst buying plain.
  split; [reflexivity |].
  rewrite !elem_of_account_create_required_active. simpl.
  rewrite Hsome, Hnone. split.
  - right; right. by exists b.
  - intros [Hin | [Heq | (b' & Hb' & _)]];
      [set_solver | done | discriminate Hb'].
Qed.

Context {WD : wire_domains}.
Hypothesis U : unambiguous_primitives RP WD.

(** X10. For [change_public_keys_operation] the packed form does tell
    the requirement: when the member encoders are unambiguous, two
    operations that fit the wire and have the same packed form have the
    same fee payer and require the same owner and active authorities. *)
Theorem change_public_keys_bytes_tell_requirement
    (op op' : change_public_keys_operation.t) :
  change_public_keys_fits op → change_public_keys_fits op' →
  change_public_keys_operation.pack op = change_public_keys_operation.pack op' →
  change_public_keys_operation.fee_payer op
    = change_public_keys_operation.fee_payer op'
  ∧ ∀ a : flat_set.t,
      change_public_keys_operation.get_required_owner_authorities op a
        = change_public_keys_operation.get_required_owner_authorities op' a
      ∧ change_public_keys_operation.get_required_active_authorities op a
        = change_public_keys_operation.get_required_active_authorities op' a.
Proof.
  intros Hop Hop' H.
  destruct (change_public_keys_reads_back U op op' [] []) as [-> _];
    [done | done | by rewrite !app_nil_r |].
  destruct op. split; [reflexivity |]. intros a. split; reflexivity.
Qed.
End requirement_on_the_wire.

(** ** The theorems with a precondition, on sample operations *)

(** Closes a domain fact of the sample encoders on given numbers. *)
Ltac sample_fits :=
  repeat split; try apply Forall_nil;
  cbv; first [reflexivity | intros ?; discriminate].

Lemma account_update_bytes_hide_requirement_witness :
  account_update_operation.pack (RP := sample_primitives)
    (sample_update None (Some 2%N))
  = account_update_operation.pack (RP := sample_primitives)
      (sample_update None None)
  ∧ account_update_operation.get_required_owner_authorities
      (sample_update None (Some 2%N)) ∅ = {[ acct 20 ]}
  ∧ account_update_operation.get_required_active_authorities
      (sample_update None (Some 2%N)) ∅ = ∅
  ∧ account_update_operation.get_required_owner_authorities
      (sample_update None None) ∅ = ∅
  ∧ account_update_operation.get_required_active_authorities
      (sample_update None None) ∅ = {[ acct 20 ]}.
Proof.
  apply (account_update_bytes_hide_requirement (PT := sample_types)
           (RP := sample_primitives) (sample_update None None)
           (mk_extension
              (ext_account_update_operation.mk (PT := sample_types)
                 None (Some 2%N) None))
           (mk_extension
              (ext_account_update_operation.mk (PT := sample_types)
                 None None None))).
  - reflexivity.
  - simpl. eexists. reflexivity.
  - reflexivity.
Defined.

Lemma account_create_bytes_hide_requirement_witness :
  account_create_operation.pack (RP := sample_primitives)
    (sample_create (Some (mk_asset_id 3, acct 12)))
  = account_create_operation.pack (RP := sample_primitives)
      (sample_create None)
  ∧ acct 12
    ∈ account_create_operation.get_required_active_authorities
        (sample_create (Some (mk_asset_id 3, acct 12))) ∅
  ∧ acct 12
    ∉ account_create_operation.get_required_active_authorities
        (sample_create None) ∅.
Proof.
  apply (account_create_bytes_hide_requirement (PT := sample_types)
           (RP := sample_primitives) (sample_create None)
           (mk_extension
              (account_create_operation.mk_ext (PT := sample_types)
                 None None None (Some (mk_asset_id 3, acct 12))))
           (mk_extension
              (account_create_operation.mk_ext (PT := sample_types)
                 None None None None))
           (mk_asset_id 3, acct 12)).
  - reflexivity.
  - reflexivity.
  - simpl. discriminate.
Defined.

Lemma change_public_keys_bytes_tell_requirement_witness :
  change_public_keys_operation.fee_payer
    (change_public_keys_operation.with_extensions
       (sample_change_keys (Some 1%N)) [future_void_t tt])
  = change_public_keys_operation.fee_payer (sample_change_keys (Some 1%N))
  ∧ ∀ a : flat_set.t,
      change_public_keys_operation.get_required_owner_authorities
        (change_public_keys_operation.with_extensions
           (sample_change_keys (Some 1%N)) [future_void_t tt]) a
      = change_public_keys_operation.get_required_owner_authorities
          (sample_change_keys (Some 1%N)) a
      ∧ change_public_keys_operation.get_required_active_authorities
          (change_public_keys_operation.with_extensions
             (sample_change_keys (Some 1%N)) [future_void_t tt]) a
        = change_public_keys_operation.get_required_active_authorities
            (sample_change_keys (Some 1%N)) a.
Proof.
  apply (change_public_keys_bytes_tell_requirement (PT := sample_types)
           (RP := sample_primitives) (WD := sample_domains)
           sample_unambiguous).
  - sample_fits.
  - sample_fits.
  - reflexivity.
Defined.

Lemma reflected_operations_unambiguous_witness :
  tether_accounts_operation.pack (RP := sample_primitives) (sample_tether 40 41)
  ≠ tether_accounts_operation.pack (RP := sample_primitives)
      (sample_tether 41 40).
Proof.
  intros H.
  destruct (reflected_operations_unambiguous (PT := sample_types)
              (RP := sample_primitives) (WD := sample_domains)
              sample_unambiguous) as (_ & _ & _ & Htether & _).
  destruct (Htether (sample_tether 40 41) (sample_tether 41 40) [] [])
    as [E _].
  - sample_fits.
  - sample_fits.
  - rewrite !app_nil_r. exact H.
  - discriminate E.
Defined.

Lemma packed_form_loses_extensions_only_witness :
  sample_update None (Some 2%N)
  = account_update_operation.with_extensions (sample_update None None)
      (account_update_operation.extensions (sample_update None (Some 2%N)))
  ∧ @nil Byte.byte = [].
Proof.
  destruct (packed_form_loses_extensions_only (PT := sample_types)
              (RP := sample_primitives) (WD := sample_domains)
              sample_unambiguous) as (_ & Hupdate & _).
  apply Hupdate.
  - sample_fits.
  - sample_fits.
  - reflexivity.
Defined.

(** The bytes of a sample operation under the sample encoders: the fee
    (amount, then asset), the two accounts, and an empty extension set. *)
Example sample_tether_bytes :
  tether_accounts_operation.pack (RP := sample_primitives) (sample_tether 40 41)
  = ([ Byte.x05; Byte.x00; Byte.x00; Byte.x00;
       Byte.x00; Byte.x00; Byte.x00; Byte.x00 ]
     ++ [ Byte.x00; Byte.x00; Byte.x00; Byte.x00;
          Byte.x00; Byte.x00; Byte.x00; Byte.x00 ]
     ++ [ Byte.x28; Byte.x00; Byte.x00; Byte.x00;
          Byte.x00; Byte.x00; Byte.x00; Byte.x00 ]
     ++ [ Byte.x29; Byte.x00; Byte.x00; Byte.x00;
          Byte.x00; Byte.x00; Byte.x00; Byte.x00 ]
     ++ [ Byte.x00; Byte.x00; Byte.x00; Byte.x00 ]).
Proof. vm_compute. reflexivity. Qed.
